(** * Endpoints of the Notion client binding (notion/endpoints/asynchronous.py)

    A shallow embedding of the endpoint classes: every coroutine becomes a
    program in a small free monad whose only effect is the call to
    [client.request]; exceptions are explicit outcomes. *)

From stdpp Require Import base option list strings gmap pretty.
From Stdlib Require Import Ascii.

Open Scope string_scope.
Open Scope list_scope.
Set Warnings "-register-all".

(** ** Values *)

(** Python values as they travel through keyword arguments and decoded JSON
    responses.  A dict is a finite map with string keys; a number is an
    integer, the endpoints never looking inside one. *)
Inductive json : Type :=
| JNull
| JBool (b : bool)
| JNum (n : Z)
| JStr (s : string)
| JArr (items : list json)
| JObj (fields : gmap string json).

(** [d.get(key, None)] *)
Definition get (d : gmap string json) (key : string) : json :=
  default JNull (d !! key).

(** [x is None] *)
Definition is_None (v : json) : bool :=
  match v with JNull => true | _ => false end.

(** Exceptions that reach the caller of an endpoint method. *)
Inductive exn : Type :=
| ValueError (msg : string)
| TypeError (msg : string)
| KeyError (key : string)
| ValidationError (msg : string)
| RequestError (msg : string).

(** The name Python prints for the type of a value, as in the messages of
    [TypeError]. *)
Definition type_name (v : json) : string :=
  match v with
  | JNull => "NoneType"
  | JBool _ => "bool"
  | JNum _ => "int"
  | JStr _ => "str"
  | JArr _ => "list"
  | JObj _ => "dict"
  end.

(** [key in mapping] for a dict with string keys: the key is hashed first,
    and lists and dicts are not hashable. *)
Definition contains {A} (mapping : gmap string A) (key : json) : exn + bool :=
  match key with
  | JStr s => inr (bool_decide (is_Some (mapping !! s)))
  | JArr _ | JObj _ =>
      inl (TypeError ("unhashable type: '" +:+ type_name key +:+ "'"))
  | JNull | JBool _ | JNum _ => inr false
  end.

(** [mapping[key]] *)
Definition getitem {A} (mapping : gmap string A) (key : json) : exn + A :=
  match key with
  | JStr s =>
      match mapping !! s with
      | Some a => inr a
      | None => inl (KeyError s)
      end
  | JArr _ | JObj _ =>
      inl (TypeError ("unhashable type: '" +:+ type_name key +:+ "'"))
  | JNull | JBool _ | JNum _ => inl (KeyError (type_name key))
  end.

(** [x == tag] for a string-valued enumeration member [tag]. *)
Definition eq_tag (x : json) (tag : string) : bool :=
  match x with
  | JStr s => bool_decide (s = tag)
  | _ => false
  end.

(** ** String formatting *)

(** [template.format(id=ident)] for templates whose only replacement field
    is [{id}]. *)
Fixpoint format_id (template ident : string) : string :=
  match template with
  | String "{"%char (String "i"%char (String "d"%char (String "}"%char rest))) =>
      ident +:+ format_id rest ident
  | String c rest => String c (format_id rest ident)
  | EmptyString => EmptyString
  end.

(** [template.format(type=text)], likewise for the field [{type}]; [text] is
    the argument already rendered by [str]. *)
Fixpoint format_type (template text : string) : string :=
  match template with
  | String "{"%char (String "t"%char (String "y"%char
      (String "p"%char (String "e"%char (String "}"%char rest))))) =>
      text +:+ format_type rest text
  | String c rest => String c (format_type rest text)
  | EmptyString => EmptyString
  end.

(** ** The helper [pick] *)

(** Modelled from the spec: [notion.helpers.pick] is imported by the module
    but its source is not part of it.  The spec describes it as whitelist
    selection, "copying only recognized fields from caller input into an
    outgoing request", unknown fields being silently dropped. *)
Definition pick (base : gmap string json) (keys : list string) : gmap string json :=
  foldr (λ key acc,
           match base !! key with
           | Some v => <[key := v]> acc
           | None => acc
           end) ∅ keys.
Global Arguments pick : simpl never.

(** ** Requests and programs *)

(** The keyword arguments of one call to [client.request].  An argument
    that the call site does not pass is [None]; an argument passed with the
    value [None] is [Some JNull]. *)
Record request : Type := Request {
  path : string;
  method : string;
  query : option (gmap string json);
  body : option (gmap string json);
  auth : option json;
}.

(** A coroutine: it returns, raises, or awaits [client.request] and goes on
    with the response. *)
Inductive prog (A : Type) : Type :=
| Ret (a : A)
| Raise (e : exn)
| Await (r : request) (k : gmap string json → prog A).
Arguments Ret {A} a.
Arguments Raise {A} e.
Arguments Await {A} r k.

Fixpoint bind {A B} (p : prog A) (f : A → prog B) : prog B :=
  match p with
  | Ret a => f a
  | Raise e => Raise e
  | Await r k => Await r (λ resp, bind (k resp) f)
  end.

Global Instance prog_ret : MRet prog := @Ret.
Global Instance prog_bind : MBind prog := λ A B f p, bind p f.

Definition client_request (r : request) : prog (gmap string json) :=
  Await r Ret.

(** Lifting of a pure computation that may raise. *)
Definition lift {A} (x : exn + A) : prog A :=
  match x with
  | inl e => Raise e
  | inr a => Ret a
  end.

(** The collaborator: a client with a state of its own, whose [request]
    answers with a decoded JSON object or raises. *)
Definition client (S : Type) : Type :=
  request → S → (exn + gmap string json) * S.

(** What a finished call leaves behind: its outcome, the client's state and
    the requests issued, oldest first. *)
Record run_result (S A : Type) : Type := RunResult {
  outcome : exn + A;
  final : S;
  issued : list request;
}.
Arguments RunResult {S A}.
Arguments outcome {S A}.
Arguments final {S A}.
Arguments issued {S A}.

Fixpoint run_from {S A} (c : client S) (p : prog A) (s : S)
    (log : list request) : run_result S A :=
  match p with
  | Ret a => RunResult (inr a) s log
  | Raise e => RunResult (inl e) s log
  | Await r k =>
      match c r s with
      | (inl e, s') => RunResult (inl e) s' (log ++ [r])
      | (inr resp, s') => run_from c (k resp) s' (log ++ [r])
      end
  end.

Definition run {S A} (c : client S) (p : prog A) (s : S) : run_result S A :=
  run_from c p s [].

(** The request a program is waiting on, if it starts with one. *)
Definition awaited {A} (p : prog A) : option request :=
  match p with
  | Await r _ => Some r
  | Ret _ | Raise _ => None
  end.

(** ** Decoding into typed objects *)

(** The classes of [notion.types] that the module names, and the block
    classes it only reaches through [BLOCK_MAPPING]. *)
Inductive cls : Type :=
| Block
| Database
| Page
| User
| BotUser
| PersonUser
| BlockVariant (name : string).

Global Instance cls_eq_dec : EqDecision cls.
Proof. solve_decision. Defined.

(** The type expressions on which [parse_obj] is called. *)
Inductive model : Type :=
| Cls (c : cls)
| Union (a b : cls)
| PaginatedList (T : model).

(** Modelled from the spec: [UserType] is declared in [notion.types], which
    is not part of the sources; the spec gives the two tags as the strings
    of the [type] field, [bot] and [person]. *)
Definition UserType_BOT : string := "bot".
Definition UserType_PERSON : string := "person".

(** [e >>= f] on outcomes. *)
Definition and_then {A B} (x : exn + A) (f : A → exn + B) : exn + B :=
  match x with
  | inl e => inl e
  | inr a => f a
  end.

(** Decoding of a list, left to right, stopping at the first failure. *)
Fixpoint traverse {A B} (f : A → exn + B) (l : list A) : exn + list B :=
  match l with
  | [] => inr []
  | a :: l' =>
      and_then (f a) (λ b, and_then (traverse f l') (λ bs, inr (b :: bs)))
  end.

(** What the endpoints take from outside the module: the instances of the
    classes of [notion.types] and the validation each class performs on a
    payload, the tag by which an item of a mixed result list tells its
    class, the table [BLOCK_MAPPING] from block type strings to block
    classes, and [repr] of a list or a dict.  None of them is part of the
    sources. *)
Class Runtime : Type := {
  instance : Type;
  validate : cls → json → exn + instance;
  discriminator : json → option cls;
  BLOCK_MAPPING : gmap string cls;
  repr_container : json → string;
}.

Section Endpoints.

Context {rt : Runtime}.

(** [str(v)], which is what [format] applies to a replacement field. *)
Definition py_str (v : json) : string :=
  match v with
  | JNull => "None"
  | JBool true => "True"
  | JBool false => "False"
  | JNum n => pretty n
  | JStr s => s
  | JArr _ | JObj _ => repr_container v
  end.

(** A decoded value: an instance of a class, or the wrapper around one
    page of results. *)
Inductive typed : Type :=
| Obj (c : cls) (x : instance)
| Paginated (results : list typed) (next_cursor : json) (has_more : json).

(** Modelled from the spec: [parse_obj] of the classes of [notion.types].
    A class validates the payload itself.  A union of two classes decodes
    an item "as either Page or Database based on its own discriminator".
    A paginated list is "a JSON page object with cursor and results list"
    that "decodes to a wrapper exposing the same items in order and the
    same cursor value", together with the has-more flag. *)
Fixpoint parse_obj (m : model) (v : json) : exn + typed :=
  match m with
  | Cls c => and_then (validate c v) (λ x, inr (Obj c x))
  | Union a b =>
      match discriminator v with
      | Some c =>
          if bool_decide (c = a ∨ c = b)
          then and_then (validate c v) (λ x, inr (Obj c x))
          else inl (ValidationError "no match for the union")
      | None => inl (ValidationError "no match for the union")
      end
  | PaginatedList T =>
      match v with
      | JObj fields =>
          match fields !! "results" with
          | Some (JArr items) =>
              and_then (traverse (parse_obj T) items)
                (λ results,
                   inr (Paginated results (get fields "next_cursor")
                          (get fields "has_more")))
          | _ => inl (ValidationError "results: a list is required")
          end
      | _ => inl (ValidationError "a dict is required")
      end
  end.

(** ** The endpoint classes *)

(** [BlocksChildrenAsyncEndpoint.append] *)
Definition BlocksChildren_append (block_id : string)
    (kwargs : gmap string json) : prog typed :=
  response ← client_request
    {| path := format_id "blocks/{id}/children" block_id;
       method := "PATCH";
       query := None;
       body := Some (pick kwargs ["children"]);
       auth := None |};
  let block_type := get response "type" in
  unsupported ←
    (if is_None block_type then Ret true
     else known ← lift (contains BLOCK_MAPPING block_type); Ret (negb known));
  if unsupported : bool
  then Raise (ValueError "Block type not supported. Check for Notion-SDK updates.")
  else
    variant ← lift (getitem BLOCK_MAPPING block_type);
    lift (parse_obj (Cls variant) (JObj response)).

(** [BlocksChildrenAsyncEndpoint.list] *)
Definition BlocksChildren_list (block_id : string)
    (kwargs : gmap string json) : prog typed :=
  response ← client_request
    {| path := format_id "blocks/{id}/children" block_id;
       method := "GET";
       auth := Some (get kwargs "auth");
       query := Some (pick kwargs ["start_cursor"; "page_size"]);
       body := None |};
  lift (parse_obj (PaginatedList (Cls Block)) (JObj response)).

(** [DatabasesAsyncEndpoint.create] *)
Definition Databases_create (kwargs : gmap string json) : prog typed :=
  response ← client_request
    {| method := "POST";
       path := "/databases";
       auth := Some (get kwargs "auth");
       query := Some (pick kwargs ["start_cursor"]);
       body := None |};
  lift (parse_obj (Cls Database) (JObj response)).

(** [DatabasesAsyncEndpoint.list] *)
Definition Databases_list (kwargs : gmap string json) : prog typed :=
  response ← client_request
    {| method := "GET";
       path := "/databases";
       auth := Some (get kwargs "auth");
       query := Some (pick kwargs ["start_cursor"; "page_size"]);
       body := None |};
  lift (parse_obj (PaginatedList (Cls Database)) (JObj response)).

(** [DatabasesAsyncEndpoint.query] *)
Definition Databases_query (database_id : string)
    (kwargs : gmap string json) : prog typed :=
  response ← client_request
    {| method := "POST";
       path := format_id "/databases/{id}/query" database_id;
       auth := Some (get kwargs "auth");
       body := Some (pick kwargs ["filter"; "sorts"; "start_cursor"; "page_size"]);
       query := None |};
  lift (parse_obj (PaginatedList (Cls Page)) (JObj response)).

(** [DatabasesAsyncEndpoint.retrieve] *)
Definition Databases_retrieve (database_id : string)
    (kwargs : gmap string json) : prog typed :=
  response ← client_request
    {| method := "GET";
       path := format_id "/databases/{id}" database_id;
       auth := Some (get kwargs "auth");
       query := None;
       body := None |};
  lift (parse_obj (Cls Database) (JObj response)).

(** [PagesAsyncEndpoint.create] *)
Definition Pages_create (kwargs : gmap string json) : prog typed :=
  response ← client_request
    {| method := "POST";
       path := "/pages";
       auth := Some (get kwargs "auth");
       body := Some (pick kwargs ["parent"; "properties"; "children"]);
       query := None |};
  lift (parse_obj (Cls Page) (JObj response)).

(** [PagesAsyncEndpoint.retrieve] *)
Definition Pages_retrieve (page_id : string)
    (kwargs : gmap string json) : prog typed :=
  response ← client_request
    {| method := "GET";
       path := format_id "pages/{id}" page_id;
       auth := Some (get kwargs "auth");
       query := None;
       body := None |};
  lift (parse_obj (Cls Page) (JObj response)).

(** [PagesAsyncEndpoint.update] *)
Definition Pages_update (page_id : string)
    (kwargs : gmap string json) : prog typed :=
  response ← client_request
    {| method := "PATCH";
       path := format_id "pages/{id}" page_id;
       auth := Some (get kwargs "auth");
       body := Some (pick kwargs ["archived"; "properties"]);
       query := None |};
  lift (parse_obj (Cls Page) (JObj response)).

(** [UsersAsyncEndpoint.list] *)
Definition Users_list (kwargs : gmap string json) : prog typed :=
  response ← client_request
    {| method := "GET";
       path := "/users";
       auth := Some (get kwargs "auth");
       query := Some (pick kwargs ["start_cursor"; "page_size"]);
       body := None |};
  lift (parse_obj (PaginatedList (Cls User)) (JObj response)).

(** [UsersAsyncEndpoint.retrieve] *)
Definition Users_retrieve (user_id : string)
    (kwargs : gmap string json) : prog typed :=
  response ← client_request
    {| method := "GET";
       path := format_id "/users/{id}" user_id;
       auth := Some (get kwargs "auth");
       query := None;
       body := None |};
  let user_type := get response "type" in
  if eq_tag user_type UserType_BOT
  then lift (parse_obj (Cls BotUser) (JObj response))
  else if eq_tag user_type UserType_PERSON
  then lift (parse_obj (Cls PersonUser) (JObj response))
  else Raise (ValueError
         (format_type "Could not decode User object with type {type}"
            (py_str user_type))).

(** [SearchAsyncEndpoint.__call__] *)
Definition Search_call (kwargs : gmap string json) : prog typed :=
  response ← client_request
    {| path := "/search";
       method := "POST";
       auth := Some (get kwargs "auth");
       body := Some (pick kwargs ["query"; "sort"; "filter"; "start_cursor"; "page_size"]);
       query := None |};
  lift (parse_obj (PaginatedList (Union Page Database)) (JObj response)).

(** ** The public methods, as one family *)

(** A public endpoint method together with its positional argument. *)
Inductive endpoint_method : Type :=
| blocks_children_append (block_id : string)
| blocks_children_list (block_id : string)
| databases_create
| databases_list
| databases_query (database_id : string)
| databases_retrieve (database_id : string)
| pages_create
| pages_retrieve (page_id : string)
| pages_update (page_id : string)
| users_list
| users_retrieve (user_id : string)
| search.

Definition invoke (m : endpoint_method) (kwargs : gmap string json) : prog typed :=
  match m with
  | blocks_children_append block_id => BlocksChildren_append block_id kwargs
  | blocks_children_list block_id => BlocksChildren_list block_id kwargs
  | databases_create => Databases_create kwargs
  | databases_list => Databases_list kwargs
  | databases_query database_id => Databases_query database_id kwargs
  | databases_retrieve database_id => Databases_retrieve database_id kwargs
  | pages_create => Pages_create kwargs
  | pages_retrieve page_id => Pages_retrieve page_id kwargs
  | pages_update page_id => Pages_update page_id kwargs
  | users_list => Users_list kwargs
  | users_retrieve user_id => Users_retrieve user_id kwargs
  | search => Search_call kwargs
  end.

(** The option keys each method names in its call to [pick]; a method
    that does not call [pick] sends neither query nor body. *)
Definition whitelist (m : endpoint_method) : list string :=
  match m with
  | blocks_children_append _ => ["children"]
  | blocks_children_list _ => ["start_cursor"; "page_size"]
  | databases_create => ["start_cursor"]
  | databases_list => ["start_cursor"; "page_size"]
  | databases_query _ => ["filter"; "sorts"; "start_cursor"; "page_size"]
  | databases_retrieve _ => []
  | pages_create => ["parent"; "properties"; "children"]
  | pages_retrieve _ => []
  | pages_update _ => ["archived"; "properties"]
  | users_list => ["start_cursor"; "page_size"]
  | users_retrieve _ => []
  | search => ["query"; "sort"; "filter"; "start_cursor"; "page_size"]
  end.

(** The string literals from which the methods build their paths. *)
Definition path_templates : list string :=
  [ "blocks/{id}/children"; "/databases"; "/databases/{id}/query";
    "/databases/{id}"; "/pages"; "pages/{id}"; "/users"; "/users/{id}";
    "/search" ].

(** The positional identifier of a method, if it takes one. *)
Definition identifier (m : endpoint_method) : option string :=
  match m with
  | blocks_children_append i | blocks_children_list i
  | databases_query i | databases_retrieve i
  | pages_retrieve i | pages_update i | users_retrieve i => Some i
  | databases_create | databases_list | pages_create | users_list
  | search => None
  end.

(** The payload a request carries besides its address and credentials. *)
Definition payload (r : request) : list (gmap string json) :=
  match query r with Some q => [q] | None => [] end ++
  match body r with Some b => [b] | None => [] end.

(** Whether a message mentions a given text. *)
Fixpoint mentions (msg text : string) : bool :=
  match msg with
  | EmptyString => bool_decide (text = EmptyString)
  | String _ rest => String.prefix text msg || mentions rest text
  end.

(** Whether an exception is the decode error of the endpoints. *)
Definition is_decode_error (e : exn) : bool :=
  match e with ValueError _ => true | _ => false end.

(** The message an exception carries. *)
Definition message (e : exn) : string :=
  match e with
  | ValueError msg | TypeError msg | ValidationError msg
  | RequestError msg => msg
  | KeyError key => key
  end.

End Endpoints.

(** ** The methods on concrete responses *)

Module Demo.

(** Instances keep the payload they were built from, the [object] field
    tells a page from a database, and two block types are known. *)
Definition runtime : Runtime := {|
  instance := json;
  validate := λ _ v,
    match v with
    | JObj _ => inr v
    | _ => inl (ValidationError "a dict is required")
    end;
  discriminator := λ v,
    match v with
    | JObj fields =>
        match fields !! "object" with
        | Some (JStr "page") => Some Page
        | Some (JStr "database") => Some Database
        | _ => None
        end
    | _ => None
    end;
  BLOCK_MAPPING :=
    {[ "paragraph" := BlockVariant "ParagraphBlock";
       "to_do" := BlockVariant "ToDoBlock" ]};
  repr_container := λ v,
    match v with
    | JArr [] => "[]"
    | JObj _ => "{...}"
    | _ => "[...]"
    end;
|}.

(** A client without state that answers every request alike. *)
Definition answering (response : gmap string json) : client unit :=
  λ _ s, (inr response, s).

(** A client that fails every request. *)
Definition failing : client unit :=
  λ _ s, (inl (RequestError "503"), s).

Definition call (c : client unit) (m : endpoint_method)
    (kwargs : gmap string json) : run_result unit (typed (rt := runtime)) :=
  run c (invoke (rt := runtime) m kwargs) tt.

Definition search_response : gmap string json :=
  {[ "results" := JArr [ JObj {[ "object" := JStr "page" ]};
                         JObj {[ "object" := JStr "database" ]} ];
     "next_cursor" := JStr "c2";
     "has_more" := JBool true ]}.

End Demo.

Section Properties.

Context {rt : Runtime}.

(** ** Strings *)

Lemma append_empty_r (s : string) : s +:+ "" = s.
Proof.
  induction s as [|a s IH]; [done|].
  change (String a (s +:+ "") = String a s). by f_equal.
Qed.

(** ** Programs and runs *)

Lemma run_await {S A} (c : client S) (r : request)
    (k : gmap string json → prog A) (s : S) :
  run c (Await r k) s =
    match c r s with
    | (inl e, s') => RunResult (inl e) s' [r]
    | (inr resp, s') => run_from c (k resp) s' [r]
    end.
Proof. reflexivity. Qed.

Lemma run_from_lift {S A} (c : client S) (x : exn + A) (s : S) log :
  run_from c (lift x) s log = RunResult x s log.
Proof. by destruct x. Qed.

(** ** The helper [pick] *)

Lemma pick_cons (base : gmap string json) key keys :
  pick base (key :: keys) =
    match base !! key with
    | Some v => <[key := v]> (pick base keys)
    | None => pick base keys
    end.
Proof. reflexivity. Qed.

Lemma pick_lookup (base : gmap string json) keys k :
  pick base keys !! k = if bool_decide (k ∈ keys) then base !! k else None.
Proof.
  induction keys as [|key keys IH].
  - rewrite bool_decide_false by apply not_elem_of_nil. apply lookup_empty.
  - rewrite pick_cons. destruct (decide (k ∈ keys)) as [Hin|Hin].
    + rewrite (bool_decide_true (k ∈ keys)) in IH by done.
      rewrite bool_decide_true by set_solver.
      destruct (base !! key) as [v|] eqn:Hkey; [|done].
      rewrite lookup_insert. destruct (decide (key = k)) as [->|Hk]; congruence.
    + rewrite (bool_decide_false (k ∈ keys)) in IH by done.
      destruct (decide (key = k)) as [->|Hk].
      * rewrite bool_decide_true by set_solver.
        destruct (base !! k) as [v|] eqn:Hkey; [|done].
        by rewrite lookup_insert_eq.
      * rewrite bool_decide_false by (rewrite elem_of_cons; intros [?|?]; done).
        destruct (base !! key) as [v|] eqn:Hkey; [|done].
        by rewrite lookup_insert_ne.
Qed.

Lemma pick_pick (base : gmap string json) keys :
  pick (pick base keys) keys = pick base keys.
Proof.
  apply map_eq. intros k. rewrite !pick_lookup.
  by destruct (bool_decide (k ∈ keys)).
Qed.

(** ** One request per call *)

Lemma run_single {S A} (c : client S) (r : request)
    (k : gmap string json → prog A) (s : S) :
  (∀ resp, ∃ x, k resp = lift x) →
  issued (run c (Await r k) s) = [r].
Proof.
  intros Hk. rewrite run_await.
  destruct (c r s) as [[e|resp] s']; [done|].
  destruct (Hk resp) as [x ->]. by rewrite run_from_lift.
Qed.

Lemma run_single_outcome {S A} (c : client S) (r : request)
    (k : gmap string json → prog A) (s s' : S) resp x :
  c r s = (inr resp, s') →
  k resp = lift x →
  outcome (run c (Await r k) s) = x.
Proof.
  intros Hc Hk. rewrite run_await, Hc, Hk. by rewrite run_from_lift.
Qed.

(** What [append] does with the response. *)
Lemma append_after_response block_type response :
  ∃ x : exn + typed,
    (unsupported ←
       (if is_None block_type then Ret true
        else known ← lift (contains BLOCK_MAPPING block_type); Ret (negb known));
     if unsupported : bool
     then Raise (ValueError "Block type not supported. Check for Notion-SDK updates.")
     else
       variant ← lift (getitem BLOCK_MAPPING block_type);
       lift (parse_obj (Cls variant) (JObj response))) = lift x.
Proof.
  destruct block_type as [| | |tag| |]; simpl;
    try (by eexists (inl _)).
  unfold mbind, prog_bind; simpl.
  destruct (BLOCK_MAPPING !! tag) as [variant|] eqn:Htag; simpl.
  - by eexists.
  - by eexists (inl _).
Qed.

(** Every method awaits the client once and then only decodes. *)
Lemma invoke_shape (m : endpoint_method) kwargs :
  ∃ r k, invoke m kwargs = Await r k ∧ ∀ resp, ∃ x, k resp = lift x.
Proof.
  destruct m; simpl; eexists _, _; (split; [reflexivity|]); intros resp;
    simpl; try (by eexists).
  - apply append_after_response.
  - unfold mbind, prog_bind; simpl.
    repeat (case_match; try by eexists); by eexists (inl _).
Qed.

Lemma invoke_issued {S} (c : client S) (s : S) m kwargs r k :
  invoke m kwargs = Await r k →
  issued (run c (invoke m kwargs) s) = [r].
Proof.
  intros Hm. destruct (invoke_shape m kwargs) as (r' & k' & Hshape & Hk).
  rewrite Hshape in Hm |- *. injection Hm as <- <-. by apply run_single.
Qed.

(** ** Properties of the requests *)

(** C6: every public endpoint method issues exactly one call to the
    client's request operation, whatever the client answers, be it a
    response or a failure: no retry and no follow-up call. *)
Theorem invoke_issues_exactly_one_request {S} (c : client S) (s : S)
    (m : endpoint_method) (kwargs : gmap string json) :
  length (issued (run c (invoke m kwargs) s)) = 1.
Proof.
  destruct (invoke_shape m kwargs) as (r & k & Hshape & Hk).
  by rewrite (invoke_issued c s m kwargs r k Hshape).
Qed.

(** C9: [BlocksChildrenAsyncEndpoint.append] passes no [auth] argument to
    the client, whatever [kwargs] holds; every other method passes
    [kwargs.get("auth", None)]. *)
Theorem append_alone_omits_auth {S} (c : client S) (s : S)
    (m : endpoint_method) (kwargs : gmap string json) :
  ∃ r, issued (run c (invoke m kwargs) s) = [r] ∧
       auth r = match m with
                | blocks_children_append _ => None
                | _ => Some (get kwargs "auth")
                end.
Proof.
  destruct m; (eexists; split; [by eapply invoke_issued|reflexivity]).
Qed.

(** C7: every request an endpoint method issues has one of the methods
    GET, POST and PATCH, and its path is one of the fixed string literals,
    with the identifier of the call in the place of [{id}] where the
    method takes one. *)
Theorem requests_use_fixed_methods_and_templates {S} (c : client S) (s : S)
    (m : endpoint_method) (kwargs : gmap string json) :
  ∃ r template,
    issued (run c (invoke m kwargs) s) = [r] ∧
    method r ∈ ["GET"; "POST"; "PATCH"] ∧
    template ∈ path_templates ∧
    path r = match identifier m with
             | Some ident => format_id template ident
             | None => template
             end.
Proof.
  destruct m;
    (eexists _, _; split; [by eapply invoke_issued|];
     split; [simpl; set_solver|];
     split; [|reflexivity]; unfold path_templates; set_solver).
Qed.

(** C1: [Databases.query] issues exactly one request, a POST to
    [/databases/<database_id>/query], whose body holds, of the keys
    [filter], [sorts], [start_cursor] and [page_size], those present in
    [kwargs], each with its value in [kwargs], and holds no other key. *)
Theorem Databases_query_request {S} (c : client S) (s : S)
    (database_id : string) (kwargs : gmap string json) :
  ∃ r b,
    issued (run c (Databases_query database_id kwargs) s) = [r] ∧
    method r = "POST" ∧
    path r = "/databases/" +:+ database_id +:+ "/query" ∧
    body r = Some b ∧
    ∀ key, b !! key =
             if bool_decide (key ∈ ["filter"; "sorts"; "start_cursor"; "page_size"])
             then kwargs !! key else None.
Proof.
  eexists _, _. split.
  { by eapply (invoke_issued c s (databases_query database_id)). }
  repeat split. intros key. apply pick_lookup.
Qed.

(** C10: [Databases.create] issues one POST to [/databases] that carries
    no body; its only payload is a query that holds [start_cursor] when
    [kwargs] does and no other key, so that any other field of [kwargs],
    such as [parent], [title] or [properties], is not transmitted. *)
Theorem Databases_create_request {S} (c : client S) (s : S)
    (kwargs : gmap string json) :
  ∃ r q,
    issued (run c (Databases_create kwargs) s) = [r] ∧
    method r = "POST" ∧
    path r = "/databases" ∧
    body r = None ∧
    query r = Some q ∧
    payload r = [q] ∧
    q !! "start_cursor" = kwargs !! "start_cursor" ∧
    ∀ key, key ≠ "start_cursor" → q !! key = None.
Proof.
  eexists _, _. split.
  { by eapply (invoke_issued c s databases_create). }
  repeat split.
  - by rewrite pick_lookup.
  - intros key Hkey. rewrite pick_lookup.
    rewrite bool_decide_false; [done|].
    by rewrite list_elem_of_singleton.
Qed.

(** C5: for every endpoint method and every [kwargs], the query and the
    body of the request hold only keys of the method's whitelist, each with
    its value in [kwargs]; keys outside the whitelist are dropped without
    an error, the request being issued all the same; and the selection is
    idempotent: selecting again from the selected mapping gives the same
    mapping, and a call with the selected mapping sends the same payload. *)
Theorem whitelist_filtering {S} (c : client S) (s : S)
    (m : endpoint_method) (kwargs : gmap string json) :
  ∃ r r',
    issued (run c (invoke m kwargs) s) = [r] ∧
    Forall (λ d : gmap string json,
              ∀ key, d !! key =
                       if bool_decide (key ∈ whitelist m)
                       then kwargs !! key else None) (payload r) ∧
    pick (pick kwargs (whitelist m)) (whitelist m) = pick kwargs (whitelist m) ∧
    issued (run c (invoke m (pick kwargs (whitelist m))) s) = [r'] ∧
    payload r' = payload r.
Proof.
  destruct m;
    (eexists _, _; split; [by eapply invoke_issued|];
     split; [unfold payload; simpl; repeat apply Forall_cons_2;
             try apply Forall_nil_2; intros key; apply pick_lookup|];
     split; [apply pick_pick|];
     split; [by eapply invoke_issued|];
     unfold payload; simpl; by rewrite ?pick_pick).
Qed.

(** ** Decoding of the response *)

(** The outcome of [append] on a response, case by case on its [type]. *)
Lemma BlocksChildren_append_outcome {S} (c : client S) (s s' : S)
    block_id kwargs r response :
  awaited (BlocksChildren_append block_id kwargs) = Some r →
  c r s = (inr response, s') →
  outcome (run c (BlocksChildren_append block_id kwargs) s) =
    match get response "type" with
    | JStr tag =>
        match BLOCK_MAPPING !! tag with
        | Some variant => parse_obj (Cls variant) (JObj response)
        | None => inl (ValueError "Block type not supported. Check for Notion-SDK updates.")
        end
    | JNull | JBool _ | JNum _ =>
        inl (ValueError "Block type not supported. Check for Notion-SDK updates.")
    | JArr _ => inl (TypeError "unhashable type: 'list'")
    | JObj _ => inl (TypeError "unhashable type: 'dict'")
    end.
Proof.
  intros [= <-] Hc.
  eapply run_single_outcome; [exact Hc|]. simpl.
  destruct (get response "type") as [| | |tag| |]; try reflexivity.
  unfold mbind, prog_bind; simpl.
  by destruct (BLOCK_MAPPING !! tag).
Qed.

(** The outcome of [Users.retrieve] on a response. *)
Lemma Users_retrieve_outcome {S} (c : client S) (s s' : S)
    user_id kwargs r response :
  awaited (Users_retrieve user_id kwargs) = Some r →
  c r s = (inr response, s') →
  outcome (run c (Users_retrieve user_id kwargs) s) =
    if eq_tag (get response "type") UserType_BOT
    then parse_obj (Cls BotUser) (JObj response)
    else if eq_tag (get response "type") UserType_PERSON
    then parse_obj (Cls PersonUser) (JObj response)
    else inl (ValueError ("Could not decode User object with type "
                          +:+ py_str (get response "type"))).
Proof.
  intros [= <-] Hc.
  eapply run_single_outcome; [exact Hc|]. simpl.
  unfold mbind, prog_bind; simpl.
  destruct (eq_tag (get response "type") UserType_BOT); [done|].
  destruct (eq_tag (get response "type") UserType_PERSON); [done|].
  by rewrite append_empty_r.
Qed.

Lemma eq_tag_true v tag : eq_tag v tag = true ↔ v = JStr tag.
Proof.
  destruct v; simpl; try (split; [done|intros [=]]).
  rewrite bool_decide_eq_true. split; [by intros ->|by intros [= ->]].
Qed.

Lemma eq_tag_false (d : gmap string json) tag :
  d !! "type" ≠ Some (JStr tag) → eq_tag (get d "type") tag = false.
Proof.
  intros Hne. apply not_true_is_false. rewrite eq_tag_true.
  unfold get. destruct (d !! "type") as [v|]; simpl; [|done].
  intros ->. done.
Qed.

(** C2: when the client answers [Users.retrieve] with a response whose
    [type] is the bot tag, the call yields what the [BotUser] decoder makes
    of that response, a [BotUser] whenever the decoder accepts it; with the
    person tag likewise a [PersonUser]; with any other value of [type], or
    none, the call fails. *)
Theorem Users_retrieve_decodes_by_type {S} (c : client S) (s s' : S)
    (user_id : string) (kwargs : gmap string json) (r : request)
    (response : gmap string json) :
  awaited (Users_retrieve user_id kwargs) = Some r →
  c r s = (inr response, s') →
  let result := outcome (run c (Users_retrieve user_id kwargs) s) in
  (response !! "type" = Some (JStr UserType_BOT) →
     result = parse_obj (Cls BotUser) (JObj response) ∧
     ∀ x, validate BotUser (JObj response) = inr x →
          result = inr (Obj BotUser x)) ∧
  (response !! "type" = Some (JStr UserType_PERSON) →
     result = parse_obj (Cls PersonUser) (JObj response) ∧
     ∀ x, validate PersonUser (JObj response) = inr x →
          result = inr (Obj PersonUser x)) ∧
  (response !! "type" ≠ Some (JStr UserType_BOT) →
   response !! "type" ≠ Some (JStr UserType_PERSON) →
     ∃ msg, result = inl (ValueError msg)).
Proof.
  intros Hr Hc result. subst result.
  rewrite (Users_retrieve_outcome c s s' user_id kwargs r response Hr Hc).
  split; [|split].
  - intros Htype. unfold get. rewrite Htype. simpl.
    split; [done|]. by intros x ->.
  - intros Htype. unfold get. rewrite Htype. simpl.
    split; [done|]. by intros x ->.
  - intros Hbot Hperson.
    rewrite (eq_tag_false _ _ Hbot), (eq_tag_false _ _ Hperson). eauto.
Qed.

(** C4, as amended: when [Users.retrieve] fails because the [type] of the
    response is neither the bot tag nor the person tag, the error message
    ends with that value as [str] renders it, which is [None] when the
    field is missing; when the [type] of the response to
    [Blocks.children.append] is missing, is [None], or is a hashable value
    that the membership test does not find among the keys of the mapping,
    [append] raises a fixed message that does not depend on the value.  Each
    half holds for every client that answers the request of its own
    method. *)
Theorem decode_error_context {S} (c : client S) (s : S)
    (user_id block_id : string) (kwargs : gmap string json) :
  (∀ (r : request) (response : gmap string json) (s' : S),
     awaited (Users_retrieve user_id kwargs) = Some r →
     c r s = (inr response, s') →
     response !! "type" ≠ Some (JStr UserType_BOT) →
     response !! "type" ≠ Some (JStr UserType_PERSON) →
       outcome (run c (Users_retrieve user_id kwargs) s) =
         inl (ValueError ("Could not decode User object with type "
                          +:+ py_str (get response "type"))) ∧
       (response !! "type" = None → py_str (get response "type") = "None")) ∧
  (∀ (r : request) (response : gmap string json) (s' : S),
     awaited (BlocksChildren_append block_id kwargs) = Some r →
     c r s = (inr response, s') →
     contains BLOCK_MAPPING (get response "type") = inr false →
       outcome (run c (BlocksChildren_append block_id kwargs) s) =
         inl (ValueError "Block type not supported. Check for Notion-SDK updates.")).
Proof.
  split.
  - intros r response s' Hr Hc Hbot Hperson. split.
    + rewrite (Users_retrieve_outcome c s s' user_id kwargs r response Hr Hc).
      by rewrite (eq_tag_false _ _ Hbot), (eq_tag_false _ _ Hperson).
    + intros Hnone. unfold get. by rewrite Hnone.
  - intros r response s' Hr Hc Hnot.
    rewrite (BlocksChildren_append_outcome c s s' block_id kwargs r response Hr Hc).
    destruct (get response "type") as [| | |tag| |]; try done.
    simpl in Hnot. injection Hnot as Hnot.
    apply bool_decide_eq_false in Hnot.
    destruct (BLOCK_MAPPING !! tag); [|done].
    exfalso. apply Hnot. eauto.
Qed.

Lemma traverse_Forall2 {A B} (f : A → exn + B) (l : list A) (bs : list B) :
  traverse f l = inr bs → Forall2 (λ a b, f a = inr b) l bs.
Proof.
  revert bs. induction l as [|a l IH]; intros bs; simpl.
  - intros [= <-]. constructor.
  - destruct (f a) as [e|b] eqn:Hfa; simpl; [done|].
    destruct (traverse f l) as [e|bs'] eqn:Hl; simpl; [done|].
    intros [= <-]. constructor; [done|]. by apply IH.
Qed.

(** C8: [Search] issues one POST to [/search] whose body holds, of the keys
    [query], [sort], [filter], [start_cursor] and [page_size], those present
    in [kwargs]; and it decodes the response as a paginated list, so that a
    decoded result keeps the items of the response in order, each decoded
    as a [Page] or as a [Database] according to its own discriminator. *)
Theorem Search_request_and_decode {S} (c : client S) (s : S)
    (kwargs : gmap string json) :
  ∃ r b,
    issued (run c (Search_call kwargs) s) = [r] ∧
    method r = "POST" ∧
    path r = "/search" ∧
    body r = Some b ∧
    (∀ key, b !! key =
              if bool_decide (key ∈ ["query"; "sort"; "filter"; "start_cursor"; "page_size"])
              then kwargs !! key else None) ∧
    ∀ response s',
      c r s = (inr response, s') →
      outcome (run c (Search_call kwargs) s) =
        parse_obj (PaginatedList (Union Page Database)) (JObj response) ∧
      ∀ decoded,
        outcome (run c (Search_call kwargs) s) = inr decoded →
        ∃ items results,
          response !! "results" = Some (JArr items) ∧
          decoded = Paginated results (get response "next_cursor")
                      (get response "has_more") ∧
          Forall2 (λ item obj,
                     ∃ x, (discriminator item = Some Page ∧
                           validate Page item = inr x ∧ obj = Obj Page x) ∨
                          (discriminator item = Some Database ∧
                           validate Database item = inr x ∧ obj = Obj Database x))
                  items results.
Proof.
  eexists _, _. split.
  { by eapply (invoke_issued c s search). }
  do 3 (split; [reflexivity|]).
  split; [intros key; apply pick_lookup|].
  intros response s' Hc.
  assert (outcome (run c (Search_call kwargs) s) =
            parse_obj (PaginatedList (Union Page Database)) (JObj response))
    as Hout.
  { eapply run_single_outcome; [exact Hc|reflexivity]. }
  split; [exact Hout|].
  intros decoded. rewrite Hout. clear Hout Hc.
  cbn [parse_obj].
  destruct (response !! "results") as [[| | | |items|]|] eqn:Hres; try done.
  destruct (traverse _ items) as [e|results] eqn:Htr; simpl; [done|].
  intros [= <-]. exists items, results. repeat split.
  apply traverse_Forall2 in Htr.
  eapply Forall2_impl; [exact Htr|]. clear. intros item obj Hitem.
  cbn [parse_obj] in Hitem.
  destruct (discriminator item) as [cl|] eqn:Hd; [|done].
  case_bool_decide as Hcl; [|done].
  destruct (validate cl item) as [e|x] eqn:Hv; simpl in Hitem; [done|].
  injection Hitem as <-. exists x.
  destruct Hcl as [->| ->]; [left|right]; done.
Qed.

(** ** What a call depends on *)

Lemma pick_ext (base base' : gmap string json) keys :
  (∀ key, key ∈ keys → base !! key = base' !! key) →
  pick base keys = pick base' keys.
Proof.
  intros Hagree. apply map_eq. intros k. rewrite !pick_lookup.
  case_bool_decide; [by apply Hagree|done].
Qed.

Lemma invoke_ext (m : endpoint_method) (kwargs kwargs' : gmap string json) :
  (∀ key, key ∈ whitelist m → kwargs !! key = kwargs' !! key) →
  get kwargs "auth" = get kwargs' "auth" →
  invoke m kwargs = invoke m kwargs'.
Proof.
  intros Hagree Hauth. apply pick_ext in Hagree.
  destruct m; simpl in *;
    unfold BlocksChildren_append, BlocksChildren_list, Databases_create,
      Databases_list, Databases_query, Databases_retrieve, Pages_create,
      Pages_retrieve, Pages_update, Users_list, Users_retrieve, Search_call;
    by rewrite ?Hagree, ?Hauth.
Qed.

(** X1: a call depends on [kwargs] only through the keys of the method's
    whitelist and through [kwargs.get("auth", None)]: two mappings that
    agree there give the same requests, the same outcome and the same final
    state of the client. *)
Theorem invoke_ignores_unlisted_kwargs {S} (c : client S) (s : S)
    (m : endpoint_method) (kwargs kwargs' : gmap string json) :
  (∀ key, key ∈ whitelist m → kwargs !! key = kwargs' !! key) →
  get kwargs "auth" = get kwargs' "auth" →
  run c (invoke m kwargs) s = run c (invoke m kwargs') s.
Proof. intros Hagree Hauth. by rewrite (invoke_ext m kwargs kwargs'). Qed.

Lemma auth_not_whitelisted (m : endpoint_method) : "auth" ∉ whitelist m.
Proof.
  intros Hin. apply list_elem_of_In in Hin.
  destruct m; simpl in Hin; intuition discriminate.
Qed.

(** X2: passing [auth=None] is the same as not passing [auth]. *)
Theorem auth_None_is_no_auth {S} (c : client S) (s : S)
    (m : endpoint_method) (kwargs : gmap string json) :
  run c (invoke m (<["auth" := JNull]> kwargs)) s =
  run c (invoke m (delete "auth" kwargs)) s.
Proof.
  f_equal. apply invoke_ext.
  - intros key Hkey. assert (key ≠ "auth") as Hne.
    { intros ->. by apply (auth_not_whitelisted m). }
    by rewrite lookup_insert_ne, lookup_delete_ne.
  - unfold get. by rewrite lookup_insert_eq, lookup_delete_eq.
Qed.

(** X3: the value of [auth] travels in the [auth] argument only: neither the
    query nor the body of a request has a key [auth], whatever [kwargs]
    holds. *)
Theorem auth_never_in_payload {S} (c : client S) (s : S)
    (m : endpoint_method) (kwargs : gmap string json) :
  ∃ r, issued (run c (invoke m kwargs) s) = [r] ∧
       Forall (λ d : gmap string json, d !! "auth" = None) (payload r).
Proof.
  destruct m;
    (eexists; split; [by eapply invoke_issued|];
     unfold payload; simpl; repeat apply Forall_cons_2;
     try apply Forall_nil_2; by rewrite pick_lookup).
Qed.

(** X4: no request carries both a query and a body, and a GET request
    carries no body. *)
Theorem query_and_body_exclude_each_other {S} (c : client S) (s : S)
    (m : endpoint_method) (kwargs : gmap string json) :
  ∃ r, issued (run c (invoke m kwargs) s) = [r] ∧
       (query r = None ∨ body r = None) ∧
       (method r ≠ "GET" ∨ body r = None).
Proof.
  destruct m;
    (eexists; split; [by eapply invoke_issued|]; simpl;
     split; [by (left + right)|]; first [by right | by left]).
Qed.

(** ** Paths *)

Lemma append_length (s t : string) :
  String.length (s +:+ t) = String.length s + String.length t.
Proof.
  induction s as [|a s IH]; [done|].
  change (S (String.length (s +:+ t)) = S (String.length s + String.length t)).
  by rewrite IH.
Qed.

Lemma append_cancel_r (s1 s2 t : string) : s1 +:+ t = s2 +:+ t → s1 = s2.
Proof.
  revert s2. induction s1 as [|a s1 IH]; intros [|b s2] Heq.
  - done.
  - apply (f_equal String.length) in Heq.
    change (String b s2 +:+ t) with (String b (s2 +:+ t)) in Heq.
    simpl in Heq. rewrite !append_length in Heq. simpl in Heq. lia.
  - apply (f_equal String.length) in Heq.
    change (String a s1 +:+ t) with (String a (s1 +:+ t)) in Heq.
    simpl in Heq. rewrite !append_length in Heq. simpl in Heq. lia.
  - change (String a (s1 +:+ t) = String b (s2 +:+ t)) in Heq.
    injection Heq as -> Heq. f_equal. by apply IH.
Qed.

(** X6: the method and the path of a request tell which endpoint method
    was called and with which identifier: two calls whose requests have the
    same method and the same path are calls of the same endpoint method with
    the same identifier. *)
Theorem routes_are_injective (m1 m2 : endpoint_method)
    (kwargs1 kwargs2 : gmap string json) (r1 r2 : request) :
  awaited (invoke m1 kwargs1) = Some r1 →
  awaited (invoke m2 kwargs2) = Some r2 →
  method r1 = method r2 →
  path r1 = path r2 →
  m1 = m2.
Proof.
  destruct m1, m2; simpl; intros [= <-] [= <-]; simpl; intros Hm Hp;
    try discriminate Hm; try discriminate Hp; try reflexivity;
    f_equal; simplify_eq/=; by eapply append_cancel_r.
Qed.

(** X7: an identifier goes into the path as it is, without escaping: asked
    for the database whose identifier ends in [/query], [Databases.retrieve]
    addresses the very path on which [Databases.query] queries the database
    named by the rest of the identifier. *)
Theorem identifier_is_not_escaped (database_id : string)
    (kwargs kwargs' : gmap string json) :
  path <$> awaited (Databases_retrieve (database_id +:+ "/query") kwargs) =
  path <$> awaited (Databases_query database_id kwargs').
Proof.
  simpl. do 12 f_equal. by rewrite append_empty_r.
Qed.

(** ** What a call returns *)

(** X9: [Blocks.children.append] returns a block only when the client
    answered with a response whose [type] is a string that is a key of
    [BLOCK_MAPPING]; the block is then the instance that the class under
    that key makes of the response. *)
Theorem append_returns_only_mapped_types {S} (c : client S) (s : S)
    (block_id : string) (kwargs : gmap string json) (v : typed) :
  outcome (run c (BlocksChildren_append block_id kwargs) s) = inr v →
  ∃ r response s' tag variant x,
    c r s = (inr response, s') ∧
    response !! "type" = Some (JStr tag) ∧
    BLOCK_MAPPING !! tag = Some variant ∧
    validate variant (JObj response) = inr x ∧
    v = Obj variant x.
Proof.
  intros Hv.
  destruct (invoke_shape (blocks_children_append block_id) kwargs)
    as (r & k & Hshape & _). simpl in Hshape.
  assert (awaited (BlocksChildren_append block_id kwargs) = Some r) as Hr
    by (by rewrite Hshape).
  destruct (c r s) as [[e|response] s'] eqn:Hc.
  { by rewrite Hshape, run_await, Hc in Hv. }
  rewrite (BlocksChildren_append_outcome c s s' block_id kwargs r response Hr Hc)
    in Hv.
  unfold get in Hv.
  destruct (response !! "type") as [[| | |tag| |]|] eqn:Htype; try done.
  simpl in Hv. destruct (BLOCK_MAPPING !! tag) as [variant|] eqn:Htag; [|done].
  simpl in Hv. destruct (validate variant (JObj response)) as [e|x] eqn:Hx;
    simpl in Hv; [done|]. injection Hv as <-.
  by exists r, response, s', tag, variant, x.
Qed.

(** X10: [Users.retrieve] returns a value only when the client answered with
    a response whose [type] is the bot tag or the person tag, and the value
    is then a [BotUser] for the one and a [PersonUser] for the other; it never
    returns an instance of another class. *)
Theorem Users_retrieve_returns_only_bots_and_persons {S} (c : client S) (s : S)
    (user_id : string) (kwargs : gmap string json) (v : typed) :
  outcome (run c (Users_retrieve user_id kwargs) s) = inr v →
  ∃ r response s' x,
    c r s = (inr response, s') ∧
    ((response !! "type" = Some (JStr UserType_BOT) ∧
      validate BotUser (JObj response) = inr x ∧ v = Obj BotUser x) ∨
     (response !! "type" = Some (JStr UserType_PERSON) ∧
      validate PersonUser (JObj response) = inr x ∧ v = Obj PersonUser x)).
Proof.
  intros Hv.
  destruct (invoke_shape (users_retrieve user_id) kwargs)
    as (r & k & Hshape & _). simpl in Hshape.
  assert (awaited (Users_retrieve user_id kwargs) = Some r) as Hr
    by (by rewrite Hshape).
  destruct (c r s) as [[e|response] s'] eqn:Hc.
  { by rewrite Hshape, run_await, Hc in Hv. }
  rewrite (Users_retrieve_outcome c s s' user_id kwargs r response Hr Hc) in Hv.
  destruct (eq_tag (get response "type") UserType_BOT) eqn:Hbot.
  - apply eq_tag_true in Hbot. simpl in Hv.
    destruct (validate BotUser (JObj response)) as [e|x] eqn:Hx;
      simpl in Hv; [done|]. injection Hv as <-.
    exists r, response, s', x. split; [done|]. left. split; [|done].
    unfold get in Hbot. by destruct (response !! "type"); simplify_eq/=.
  - destruct (eq_tag (get response "type") UserType_PERSON) eqn:Hperson; [|done].
    apply eq_tag_true in Hperson. simpl in Hv.
    destruct (validate PersonUser (JObj response)) as [e|x] eqn:Hx;
      simpl in Hv; [done|]. injection Hv as <-.
    exists r, response, s', x. split; [done|]. right. split; [|done].
    unfold get in Hperson. by destruct (response !! "type"); simplify_eq/=.
Qed.

Lemma pick_nothing (base : gmap string json) keys :
  (∀ key, key ∈ keys → base !! key = None) → pick base keys = ∅.
Proof.
  intros Hnone. apply map_eq. intros k. rewrite pick_lookup, lookup_empty.
  case_bool_decide; [by apply Hnone|done].
Qed.

(** X11: when [kwargs] has none of the keys of a method's whitelist, the
    method still passes the query or body argument it always passes, as an
    empty mapping; a method without whitelisted keys passes neither. *)
Theorem unset_options_send_an_empty_mapping {S} (c : client S) (s : S)
    (m : endpoint_method) (kwargs : gmap string json) :
  (∀ key, key ∈ whitelist m → kwargs !! key = None) →
  ∃ r, issued (run c (invoke m kwargs) s) = [r] ∧
       payload r = if decide (whitelist m = []) then [] else [∅].
Proof.
  intros Hnone. apply pick_nothing in Hnone.
  destruct m; simpl in Hnone;
    (eexists; split; [by eapply invoke_issued|];
     unfold payload; simpl; by rewrite ?Hnone).
Qed.

(** X12: how a response is decoded does not depend on [kwargs]: two calls of
    the same method whose clients answer with the same response have the
    same outcome, whatever the keyword arguments, the clients and their
    states. *)
Theorem decoding_ignores_kwargs {S S'} (c : client S) (c' : client S')
    (s s1 : S) (s' s1' : S') (m : endpoint_method)
    (kwargs kwargs' : gmap string json) (r r' : request)
    (response : gmap string json) :
  awaited (invoke m kwargs) = Some r →
  awaited (invoke m kwargs') = Some r' →
  c r s = (inr response, s1) →
  c' r' s' = (inr response, s1') →
  outcome (run c (invoke m kwargs) s) = outcome (run c' (invoke m kwargs') s').
Proof.
  intros Hr Hr' Hc Hc'.
  destruct m; simpl in *;
    try (injection Hr as <-; injection Hr' as <-;
         etransitivity;
         [ eapply run_single_outcome; [exact Hc|reflexivity]
         | symmetry; eapply run_single_outcome; [exact Hc'|reflexivity] ]).
  - by rewrite (BlocksChildren_append_outcome c s s1 _ _ r response Hr Hc),
      (BlocksChildren_append_outcome c' s' s1' _ _ r' response Hr' Hc').
  - by rewrite (Users_retrieve_outcome c s s1 _ _ r response Hr Hc),
      (Users_retrieve_outcome c' s' s1' _ _ r' response Hr' Hc').
Qed.

(** X13: the paths of the block methods and of [Pages.retrieve] and
    [Pages.update] do not start with a slash; the paths of all other methods
    do. *)
Theorem paths_without_leading_slash {S} (c : client S) (s : S)
    (m : endpoint_method) (kwargs : gmap string json) :
  ∃ r, issued (run c (invoke m kwargs) s) = [r] ∧
       String.prefix "/" (path r) =
         match m with
         | blocks_children_append _ | blocks_children_list _
         | pages_retrieve _ | pages_update _ => false
         | _ => true
         end.
Proof.
  destruct m; (eexists; split; [by eapply invoke_issued|reflexivity]).
Qed.

End Properties.

(** ** Requests on concrete calls *)

Example query_path :
  path <$> issued (Demo.call Demo.failing (databases_query "db7")
                     {[ "filter" := JStr "f"; "limit" := JNum 5 ]})
  = ["/databases/db7/query"].
Proof. reflexivity. Qed.

Example query_body_drops_limit :
  body <$> issued (Demo.call Demo.failing (databases_query "db7")
                     {[ "filter" := JStr "f"; "limit" := JNum 5 ]})
  = [Some {[ "filter" := JStr "f" ]}].
Proof. vm_compute. reflexivity. Qed.

Example create_sends_no_body :
  (λ r, (method r, path r, query r, body r)) <$>
    issued (Demo.call Demo.failing databases_create
              {[ "parent" := JStr "p"; "title" := JStr "t" ]})
  = [("POST", "/databases", Some ∅, None)].
Proof. vm_compute. reflexivity. Qed.

Example append_ignores_auth :
  auth <$> issued (Demo.call Demo.failing (blocks_children_append "b1")
                     {[ "auth" := JStr "secret" ]})
  = [None].
Proof. reflexivity. Qed.

Example list_forwards_auth :
  auth <$> issued (Demo.call Demo.failing (blocks_children_list "b1")
                     {[ "auth" := JStr "secret" ]})
  = [Some (JStr "secret")].
Proof. vm_compute. reflexivity. Qed.

Example append_known_type :
  outcome (Demo.call (Demo.answering {[ "type" := JStr "to_do" ]})
             (blocks_children_append "b1") ∅)
  = inr (Obj (rt := Demo.runtime) (BlockVariant "ToDoBlock") (JObj {[ "type" := JStr "to_do" ]})).
Proof. vm_compute. reflexivity. Qed.

Example append_missing_type :
  outcome (Demo.call (Demo.answering ∅) (blocks_children_append "b1") ∅)
  = inl (ValueError "Block type not supported. Check for Notion-SDK updates.").
Proof. vm_compute. reflexivity. Qed.

Example retrieve_missing_type :
  outcome (Demo.call (Demo.answering ∅) (users_retrieve "u1") ∅)
  = inl (ValueError "Could not decode User object with type None").
Proof. vm_compute. reflexivity. Qed.

(** ** Decoding on concrete responses *)

(** C3: on a response whose [type] is a list, which is not a key of the
    mapping, [append] does not fail with the decode error: the membership
    test itself raises [TypeError], whatever the mapping holds. *)
Theorem BlocksChildren_append_unhashable_type {rt : Runtime}
    (block_id : string) (kwargs : gmap string json) (items : list json) :
  outcome (run (Demo.answering {[ "type" := JArr items ]})
             (BlocksChildren_append block_id kwargs) tt)
  = inl (TypeError "unhashable type: 'list'").
Proof.
  erewrite BlocksChildren_append_outcome; [|reflexivity|reflexivity].
  unfold get. by rewrite lookup_singleton_eq.
Qed.

(** C4, as stated, fails for [append]: a response with the unknown type
    [robot] makes it raise a decode error whose message does not mention
    that value. *)
Lemma BlocksChildren_append_error_omits_tag :
  ∃ e,
    outcome (Demo.call (Demo.answering {[ "type" := JStr "robot" ]})
               (blocks_children_append "b1") ∅) = inl e ∧
    is_decode_error e = true ∧
    mentions (message e) (py_str (rt := Demo.runtime) (JStr "robot")) = false.
Proof. eexists. split; [vm_compute; reflexivity|]. split; reflexivity. Qed.

(** The bot and the robot of the spec's examples. *)
Lemma Users_retrieve_decodes_by_type_witness :
  outcome (Demo.call (Demo.answering {[ "type" := JStr "bot" ]})
             (users_retrieve "u1") ∅)
    = inr (Obj (rt := Demo.runtime) BotUser (JObj {[ "type" := JStr "bot" ]})) ∧
  ∃ msg,
    outcome (Demo.call (Demo.answering {[ "type" := JStr "robot" ]})
               (users_retrieve "u1") ∅)
      = inl (ValueError msg).
Proof.
  split.
  - pose proof (Users_retrieve_decodes_by_type (rt := Demo.runtime)
      (Demo.answering {[ "type" := JStr "bot" ]}) tt tt "u1" ∅ _
      {[ "type" := JStr "bot" ]} eq_refl eq_refl) as [Hbot _].
    destruct (Hbot eq_refl) as [_ Hx]. apply Hx. reflexivity.
  - pose proof (Users_retrieve_decodes_by_type (rt := Demo.runtime)
      (Demo.answering {[ "type" := JStr "robot" ]}) tt tt "u1" ∅ _
      {[ "type" := JStr "robot" ]} eq_refl eq_refl) as (_ & _ & Hother).
    apply Hother; vm_compute; intros [=].
Defined.

Lemma decode_error_context_witness :
  outcome (Demo.call (Demo.answering {[ "type" := JStr "robot" ]})
             (users_retrieve "u1") ∅)
    = inl (ValueError "Could not decode User object with type robot") ∧
  outcome (Demo.call (Demo.answering {[ "type" := JStr "robot" ]})
             (blocks_children_append "b1") ∅)
    = inl (ValueError "Block type not supported. Check for Notion-SDK updates.").
Proof.
  destruct (decode_error_context (rt := Demo.runtime)
    (Demo.answering {[ "type" := JStr "robot" ]}) tt "u1" "b1" ∅)
    as [Huser Hblock].
  split.
  - apply (Huser _ {[ "type" := JStr "robot" ]} tt eq_refl eq_refl);
      vm_compute; intros [=].
  - apply (Hblock _ {[ "type" := JStr "robot" ]} tt eq_refl eq_refl).
    vm_compute. reflexivity.
Defined.

Lemma Search_request_and_decode_witness :
  outcome (Demo.call (Demo.answering Demo.search_response) search ∅)
  = inr (Paginated (rt := Demo.runtime)
           [ Obj (rt := Demo.runtime) Page (JObj {[ "object" := JStr "page" ]});
             Obj (rt := Demo.runtime) Database
               (JObj {[ "object" := JStr "database" ]}) ]
           (JStr "c2") (JBool true)).
Proof.
  destruct (Search_request_and_decode (rt := Demo.runtime)
    (Demo.answering Demo.search_response) tt ∅)
    as (r & b & _ & _ & _ & _ & _ & Hdec).
  destruct (Hdec Demo.search_response tt eq_refl) as [Hout _].
  unfold Demo.call, invoke. rewrite Hout. vm_compute. reflexivity.
Defined.

(** ** Further properties on concrete calls *)

Lemma invoke_ignores_unlisted_kwargs_witness :
  Demo.call Demo.failing (databases_query "db7")
    {[ "filter" := JStr "f"; "limit" := JNum 5 ]} =
  Demo.call Demo.failing (databases_query "db7") {[ "filter" := JStr "f" ]}.
Proof.
  apply (invoke_ignores_unlisted_kwargs (rt := Demo.runtime)).
  - intros key Hkey. apply list_elem_of_In in Hkey. simpl in Hkey.
    destruct Hkey as [<-|[<-|[<-|[<-|[]]]]]; reflexivity.
  - reflexivity.
Defined.

Lemma routes_are_injective_witness :
  users_retrieve "u1" = users_retrieve "u1".
Proof.
  exact (routes_are_injective (rt := Demo.runtime)
           (users_retrieve "u1") (users_retrieve "u1")
           ∅ {[ "auth" := JStr "t" ]} _ _ eq_refl eq_refl eq_refl eq_refl).
Defined.

Lemma append_returns_only_mapped_types_witness :
  ∃ r response s' tag variant x,
    Demo.answering {[ "type" := JStr "to_do" ]} r tt = (inr response, s') ∧
    response !! "type" = Some (JStr tag) ∧
    BLOCK_MAPPING (Runtime := Demo.runtime) !! tag = Some variant ∧
    validate (Runtime := Demo.runtime) variant (JObj response) = inr x ∧
    Obj (rt := Demo.runtime) (BlockVariant "ToDoBlock")
      (JObj {[ "type" := JStr "to_do" ]}) = Obj variant x.
Proof.
  apply (append_returns_only_mapped_types (rt := Demo.runtime)
           (Demo.answering {[ "type" := JStr "to_do" ]}) tt "b1" ∅).
  vm_compute. reflexivity.
Defined.

Lemma Users_retrieve_returns_only_bots_and_persons_witness :
  ∃ r response s' x,
    Demo.answering {[ "type" := JStr "person" ]} r tt = (inr response, s') ∧
    ((response !! "type" = Some (JStr UserType_BOT) ∧
      validate (Runtime := Demo.runtime) BotUser (JObj response) = inr x ∧
      Obj (rt := Demo.runtime) PersonUser
        (JObj {[ "type" := JStr "person" ]}) = Obj BotUser x) ∨
     (response !! "type" = Some (JStr UserType_PERSON) ∧
      validate (Runtime := Demo.runtime) PersonUser (JObj response) = inr x ∧
      Obj (rt := Demo.runtime) PersonUser
        (JObj {[ "type" := JStr "person" ]}) = Obj PersonUser x)).
Proof.
  apply (Users_retrieve_returns_only_bots_and_persons (rt := Demo.runtime)
           (Demo.answering {[ "type" := JStr "person" ]}) tt "u1" ∅).
  vm_compute. reflexivity.
Defined.

Lemma unset_options_send_an_empty_mapping_witness :
  ∃ r, issued (Demo.call Demo.failing databases_list {[ "auth" := JStr "t" ]})
         = [r] ∧
       payload r = [∅].
Proof.
  apply (unset_options_send_an_empty_mapping (rt := Demo.runtime)
           Demo.failing tt databases_list {[ "auth" := JStr "t" ]}).
  intros key Hkey. apply list_elem_of_In in Hkey. simpl in Hkey.
  destruct Hkey as [<-|[<-|[]]]; reflexivity.
Defined.

Lemma decoding_ignores_kwargs_witness :
  outcome (Demo.call (Demo.answering {[ "type" := JStr "bot" ]})
             (users_retrieve "u1") ∅) =
  outcome (Demo.call (Demo.answering {[ "type" := JStr "bot" ]})
             (users_retrieve "u1") {[ "auth" := JStr "t" ]}).
Proof.
  exact (decoding_ignores_kwargs (rt := Demo.runtime)
           (Demo.answering {[ "type" := JStr "bot" ]})
           (Demo.answering {[ "type" := JStr "bot" ]}) tt tt tt tt
           (users_retrieve "u1") ∅ {[ "auth" := JStr "t" ]} _ _
           {[ "type" := JStr "bot" ]} eq_refl eq_refl eq_refl eq_refl).
Defined.
